(** * The expression formatter of pg_hacker_helper_tools.c

    A shallow embedding of [format_expr_inner] and
    [pg_hacker_helper_format_expr] (contrib/pg_hacker_helper_tools.c) and the
    properties of the text they produce.

    The formatter appends to a [StringInfo] buffer; here the buffer is a
    [string] threaded through the calls.  The PostgreSQL routines the file
    calls but does not define (catalog lookups, type output, the special
    [varno] codes) are the fields of the class [Backend]. *)

From Stdlib Require Import ZArith NArith List String Ascii Bool Lia.
Import ListNotations.

Local Open Scope string_scope.
Local Open Scope Z_scope.

Set Warnings "-register-all".

(** ** Outcomes of a call

    A C call in the backend either returns, or a callee reports
    [elog(ERROR, ...)] and control leaves the call by [longjmp], or a pointer
    that is NULL or out of bounds is read. *)

Inductive outcome (A : Type) : Type :=
| Done (a : A)
| Raised (msg : string)
| Fault.

Arguments Done {A} a.
Arguments Raised {A} msg.
Arguments Fault {A}.

Definition bind {A B : Type} (c : outcome A) (k : A -> outcome B) : outcome B :=
  match c with
  | Done a => k a
  | Raised msg => Raised msg
  | Fault => Fault
  end.

Notation "x <- c ;; k" := (bind c (fun x => k))
  (at level 61, c at next level, right associativity).

Definition is_done {A : Type} (c : outcome A) : bool :=
  match c with
  | Done _ => true
  | _ => false
  end.

(** ** Data model: the node types the formatter reads *)

Definition Oid := N.
Definition Datum := N.
Definition AttrNumber := Z.
Definition NodeTag := N.

(** [Alias]: the fields [aliasname] and [colnames]. *)
Record Alias : Type := mkAlias {
  aliasname : string;
  colnames : list string
}.

(** [RangeTblEntry]: the formatter reads [rte->eref->aliasname] only. *)
Record RangeTblEntry : Type := mkRTE {
  eref : Alias
}.

(** [Expr]: the four node kinds the formatter knows and, under [OtherNode],
    every other node tag.  [varno] is a C [int]. *)
Inductive Expr : Type :=
| Var (varno : Z) (varattno : AttrNumber)
| Const (consttype : Oid) (constvalue : Datum) (constisnull : bool)
| OpExpr (opno : Oid) (args : list Expr)
| FuncExpr (funcid : Oid) (args : list Expr)
| OtherNode (tag : NodeTag).

Arguments Const consttype%_N constvalue%_N constisnull%_bool.
Arguments OpExpr opno%_N args%_list.
Arguments FuncExpr funcid%_N args%_list.
Arguments OtherNode tag%_N.

(** ** PostgreSQL list primitives *)

Definition list_length {A : Type} (l : list A) : Z := Z.of_nat (List.length l).

(** [list_nth(list, n)]: [None] stands for a read outside the list. *)
Definition list_nth {A : Type} (l : list A) (n : Z) : option A :=
  if n <? 0 then None else nth_error l (Z.to_nat n).

(** [rt_fetch(rangetable_index, rangetable)] is
    [list_nth(rangetable, rangetable_index - 1)]. *)
Definition rt_fetch (rangetable_index : Z) (rangetable : list RangeTblEntry)
  : option RangeTblEntry :=
  list_nth rangetable (rangetable_index - 1).

(** ** The routines of the backend the formatter calls

    [get_opname] and [get_func_name] return NULL for an id that is not in the
    catalog.  [get_rte_attribute_name], [getTypeOutputInfo] and
    [OidOutputFunctionCall] report what they cannot resolve with
    [elog(ERROR)].  The three special [varno] codes are the labels of one C
    [switch], hence pairwise different. *)

Class Backend : Type := {
  INNER_VAR : Z;
  OUTER_VAR : Z;
  INDEX_VAR : Z;
  special_varnos_distinct :
    INNER_VAR <> OUTER_VAR /\ INNER_VAR <> INDEX_VAR /\ OUTER_VAR <> INDEX_VAR;
  get_opname : Oid -> option string;
  get_func_name : Oid -> option string;
  get_rte_attribute_name : RangeTblEntry -> AttrNumber -> outcome string;
  getTypeOutputInfo : Oid -> outcome (Oid * bool);
  OidOutputFunctionCall : Oid -> Datum -> outcome string
}.

(** ** The formatter *)

(** The [foreach(l, e->args)] loop of the [FuncExpr] case, over the routine
    [format_arg] that formats one argument into the buffer: after each
    argument a comma is appended when [lnext(e->args, l)] is non-NULL, that
    is when arguments remain. *)
Section ForeachArgs.

Variable format_arg : string -> Expr -> outcome string.

Fixpoint foreach_args (buf : string) (cells : list Expr) {struct cells}
  : outcome string :=
  match cells with
  | [] => Done buf
  | arg :: rest =>
      buf1 <- format_arg buf arg ;;
      foreach_args (match rest with [] => buf1 | _ :: _ => buf1 ++ "," end) rest
  end.

End ForeachArgs.

Section Formatter.

Context {pg : Backend}.

(** [(opname != NULL) ? opname : "(invalid operator)"] *)
Definition opname_or_placeholder (opname : option string) : string :=
  match opname with
  | Some name => name
  | None => "(invalid operator)"
  end.

(** [(funcname != NULL) ? funcname : "(invalid function)"] *)
Definition funcname_or_placeholder (funcname : option string) : string :=
  match funcname with
  | Some name => name
  | None => "(invalid function)"
  end.

(** [format_expr_inner(str, expr, rtable)]: the result is the buffer after
    the call.

    [get_leftop] is the first argument of the [OpExpr], or NULL when it has
    none; [get_rightop] is the second one when there are at least two.  The
    formatter reads the node tag of what it is given, so a NULL operand is a
    [Fault].

    [appendStringInfo(str, "%s.%s", relname, attname)] appends the two
    names around a dot. *)
Fixpoint format_expr_inner (str : string) (expr : Expr)
    (rtable : list RangeTblEntry) {struct expr} : outcome string :=
  match expr with
  | Var varno varattno =>
      if varno =? INNER_VAR then Done (str ++ "INNER" ++ "." ++ "?")
      else if varno =? OUTER_VAR then Done (str ++ "OUTER" ++ "." ++ "?")
      else if varno =? INDEX_VAR then Done (str ++ "INDEX" ++ "." ++ "?")
      else if negb ((0 <? varno) && (varno <=? list_length rtable))
      then Done str
      else
        match rt_fetch varno rtable with
        | None => Fault
        | Some rte =>
            let relname := aliasname (eref rte) in
            attname <- get_rte_attribute_name rte varattno ;;
            Done (str ++ relname ++ "." ++ attname)
        end
  | Const consttype constvalue constisnull =>
      if constisnull then Done (str ++ "NULL")
      else
        info <- getTypeOutputInfo consttype ;;
        outputstr <- OidOutputFunctionCall (fst info) constvalue ;;
        Done (str ++ outputstr)
  | OpExpr opno args =>
      let opname := get_opname opno in
      if 1 <? list_length args then
        match args with
        | l :: r :: _ =>
            str1 <- format_expr_inner str l rtable ;;
            format_expr_inner
              (str1 ++ " " ++ opname_or_placeholder opname ++ " ") r rtable
        | _ => Fault
        end
      else
        match args with
        | l :: _ =>
            format_expr_inner
              (str ++ opname_or_placeholder opname ++ " ") l rtable
        | [] => Fault
        end
  | FuncExpr funcid args =>
      let funcname := get_func_name funcid in
      str1 <- foreach_args
                (fun buf arg => format_expr_inner buf arg rtable)
                (str ++ funcname_or_placeholder funcname ++ "(") args ;;
      Done (str1 ++ ")")
  | OtherNode _ => Done (str ++ "unknown expr")
  end.

(** [pg_hacker_helper_format_expr(expr, rtable)]: a NULL [expr] gives NULL;
    otherwise the buffer starts empty and its data is returned. *)
Definition pg_hacker_helper_format_expr (expr : option Expr)
    (rtable : list RangeTblEntry) : outcome (option string) :=
  match expr with
  | None => Done None
  | Some e =>
      data <- format_expr_inner "" e rtable ;;
      Done (Some data)
  end.

(** [pg_hacker_helper_version()] *)
Definition pg_hacker_helper_version : Z := 1.

End Formatter.

(** [prepend str c]: the outcome [c] with [str] put before its text. *)
Definition prepend (str : string) (c : outcome string) : outcome string :=
  text <- c ;; Done (str ++ text).

(** ** Induction over expression trees

    [Expr] is nested through [list]: the induction hypothesis for an operator
    application or a function call covers every argument. *)

Section ExprInduction.

Variable P : Expr -> Prop.

Hypothesis P_Var : forall varno varattno, P (Var varno varattno).
Hypothesis P_Const :
  forall consttype constvalue constisnull,
    P (Const consttype constvalue constisnull).
Hypothesis P_OpExpr : forall opno args, Forall P args -> P (OpExpr opno args).
Hypothesis P_FuncExpr :
  forall funcid args, Forall P args -> P (FuncExpr funcid args).
Hypothesis P_OtherNode : forall tag, P (OtherNode tag).

Fixpoint Expr_nested_ind (e : Expr) : P e :=
  let all_args :=
    fix all_args (l : list Expr) : Forall P l :=
      match l with
      | [] => Forall_nil P
      | x :: xs => Forall_cons x (Expr_nested_ind x) (all_args xs)
      end in
  match e with
  | Var varno varattno => P_Var varno varattno
  | Const consttype constvalue constisnull =>
      P_Const consttype constvalue constisnull
  | OpExpr opno args => P_OpExpr opno args (all_args args)
  | FuncExpr funcid args => P_FuncExpr funcid args (all_args args)
  | OtherNode tag => P_OtherNode tag
  end.

End ExprInduction.

(** ** When the traversal returns

    [renders rtable expr] follows the nodes [format_expr_inner] visits: each
    attribute-name and type-output lookup made on the way returns, and each
    operator application has an operand to format. *)

Section Renders.

Context {pg : Backend}.

Fixpoint renders (rtable : list RangeTblEntry) (expr : Expr) {struct expr}
  : bool :=
  match expr with
  | Var varno varattno =>
      if varno =? INNER_VAR then true
      else if varno =? OUTER_VAR then true
      else if varno =? INDEX_VAR then true
      else if negb ((0 <? varno) && (varno <=? list_length rtable)) then true
      else
        match rt_fetch varno rtable with
        | None => false
        | Some rte => is_done (get_rte_attribute_name rte varattno)
        end
  | Const consttype constvalue constisnull =>
      if constisnull then true
      else
        is_done (info <- getTypeOutputInfo consttype ;;
                 OidOutputFunctionCall (fst info) constvalue)
  | OpExpr _ args =>
      match args with
      | [] => false
      | [l] => renders rtable l
      | l :: r :: _ => renders rtable l && renders rtable r
      end
  | FuncExpr _ args => forallb (renders rtable) args
  | OtherNode _ => true
  end.

End Renders.

(** ** A sample backend

    An instance of [Backend] with the behaviour of the PostgreSQL routines
    on a small catalog.  The special [varno] codes are those of PostgreSQL 14
    and later.  [get_opname] and [get_func_name] know a few ids and return
    NULL for the others.  [get_rte_attribute_name] is the routine of
    parser/parse_relation.c on an entry whose names come from
    [eref->colnames]: attribute 0 is the whole row ["*"], attributes 1 to the
    number of columns are named, and for any other number it ends in
    [elog(ERROR, "invalid attnum %d for rangetable entry %s")].
    [getTypeOutputInfo] (utils/cache/lsyscache.c) ends in
    [elog(ERROR, "cache lookup failed for type %u")] for a type id that is
    not in the catalog; the catalog here has [bool], whose output function
    prints [t] or [f]. *)

Definition sample_get_opname (opno : Oid) : option string :=
  match opno with
  | 551%N => Some "+"
  | 96%N => Some "="
  | 558%N => Some "-"
  | _ => None
  end.

Definition sample_get_func_name (funcid : Oid) : option string :=
  match funcid with
  | 870%N => Some "lower"
  | 1397%N => Some "abs"
  | 2108%N => Some "now"
  | _ => None
  end.

Definition sample_get_rte_attribute_name (rte : RangeTblEntry)
    (attnum : AttrNumber) : outcome string :=
  if attnum =? 0 then Done "*"
  else if (0 <? attnum) && (attnum <=? list_length (colnames (eref rte)))
  then match list_nth (colnames (eref rte)) (attnum - 1) with
       | Some name => Done name
       | None => Fault
       end
  else Raised "invalid attnum for rangetable entry".

Definition sample_getTypeOutputInfo (type : Oid) : outcome (Oid * bool) :=
  match type with
  | 16%N => Done (1242%N, false)
  | _ => Raised "cache lookup failed for type"
  end.

Definition sample_OidOutputFunctionCall (functionId : Oid) (val : Datum)
  : outcome string :=
  match functionId with
  | 1242%N => Done (if (val =? 0)%N then "f" else "t")
  | _ => Raised "cache lookup failed for function"
  end.

#[local] Instance sample_backend : Backend := {|
  INNER_VAR := -1;
  OUTER_VAR := -2;
  INDEX_VAR := -3;
  special_varnos_distinct := ltac:(repeat split; discriminate);
  get_opname := sample_get_opname;
  get_func_name := sample_get_func_name;
  get_rte_attribute_name := sample_get_rte_attribute_name;
  getTypeOutputInfo := sample_getTypeOutputInfo;
  OidOutputFunctionCall := sample_OidOutputFunctionCall
|}.

Definition sample_rtable : list RangeTblEntry :=
  [ mkRTE (mkAlias "emp" ["id"; "name"; "dept"]);
    mkRTE (mkAlias "d" ["id"; "title"]) ].

(** ** Shapes of trees and of range tables

    Predicates on the inputs of the formatter, used to state when a call
    reads no NULL operand and which range-table entries it depends on. *)

Definition is_fault {A : Type} (c : outcome A) : bool :=
  match c with
  | Fault => true
  | _ => false
  end.

(** Every operator application of the tree has at least one operand. *)
Fixpoint has_operands (expr : Expr) : bool :=
  match expr with
  | OpExpr _ args =>
      match args with
      | [] => false
      | _ :: _ => forallb has_operands args
      end
  | FuncExpr _ args => forallb has_operands args
  | _ => true
  end.

(** Every [varno] of a column reference of the tree satisfies [q]. *)
Fixpoint all_varnos (q : Z -> bool) (expr : Expr) : bool :=
  match expr with
  | Var varno _ => q varno
  | OpExpr _ args => forallb (all_varnos q) args
  | FuncExpr _ args => forallb (all_varnos q) args
  | _ => true
  end.

(** The labels of the [switch] on [var->varno]. *)
Definition is_special_varno {pg : Backend} (varno : Z) : bool :=
  (varno =? INNER_VAR) || (varno =? OUTER_VAR) || (varno =? INDEX_VAR).

(** The test that stands where the [Assert] was:
    [var->varno > 0 && (int) var->varno <= list_length(rtable)]. *)
Definition varno_in_range (rtable : list RangeTblEntry) (varno : Z) : bool :=
  (0 <? varno) && (varno <=? list_length rtable).

(** ** Strings and outcomes *)

Lemma append_assoc (a b c : string) : (a ++ b) ++ c = a ++ (b ++ c).
Proof.
  induction a as [|ch a IH]; simpl; [reflexivity | now rewrite IH].
Qed.

Lemma append_empty_r (a : string) : a ++ "" = a.
Proof.
  induction a as [|ch a IH]; simpl; [reflexivity | now rewrite IH].
Qed.

Lemma prepend_done (str text : string) : prepend str (Done text) = Done (str ++ text).
Proof. reflexivity. Qed.

Lemma prepend_prepend (s1 s2 : string) (c : outcome string) :
  prepend s1 (prepend s2 c) = prepend (s1 ++ s2) c.
Proof.
  destruct c; simpl; try reflexivity.
  now rewrite append_assoc.
Qed.

Lemma prepend_bind (str : string) (c : outcome string) (k : string -> outcome string) :
  prepend str (x <- c ;; k x) = (x <- c ;; prepend str (k x)).
Proof. destruct c; reflexivity. Qed.

Lemma is_done_prepend (str : string) (c : outcome string) :
  is_done (prepend str c) = is_done c.
Proof. destruct c; reflexivity. Qed.

Lemma is_done_true {A : Type} (c : outcome A) :
  is_done c = true <-> exists a, c = Done a.
Proof.
  destruct c; simpl; split; intros H; try discriminate; eauto;
    destruct H as [a H]; discriminate.
Qed.


(** ** The buffer is only appended to

    Formatting into a buffer [str] gives [str] followed by what formatting
    into the empty buffer gives, with the same outcome. *)

Section Properties.

Context {pg : Backend}.

Variable rtable : list RangeTblEntry.

Lemma foreach_args_prefix (f : string -> Expr -> outcome string)
    (cells : list Expr) :
  Forall (fun arg => forall str, f str arg = prepend str (f "" arg)) cells ->
  forall str buf,
    foreach_args f (str ++ buf) cells = prepend str (foreach_args f buf cells).
Proof.
  induction 1 as [|arg rest Harg Hrest IH]; intros str buf; simpl.
  - reflexivity.
  - rewrite (Harg (str ++ buf)), (Harg buf).
    destruct (f "" arg) as [text| |]; simpl; try reflexivity.
    destruct rest as [|next rest'].
    + now rewrite append_assoc.
    + rewrite <- IH. f_equal. now rewrite !append_assoc.
Qed.

Lemma format_expr_inner_prefix (expr : Expr) :
  forall str,
    format_expr_inner str expr rtable
    = prepend str (format_expr_inner "" expr rtable).
Proof.
  induction expr as [varno varattno | consttype constvalue constisnull
                    | opno args IH | funcid args IH | tag]
    using Expr_nested_ind; intros str.
  - simpl.
    destruct (varno =? INNER_VAR); [reflexivity|].
    destruct (varno =? OUTER_VAR); [reflexivity|].
    destruct (varno =? INDEX_VAR); [reflexivity|].
    destruct (negb _); [simpl; now rewrite append_empty_r|].
    destruct (rt_fetch varno rtable) as [rte|]; [|reflexivity].
    destruct (get_rte_attribute_name rte varattno); reflexivity.
  - simpl. destruct constisnull; [reflexivity|].
    destruct (getTypeOutputInfo consttype) as [info| |]; simpl; try reflexivity.
    destruct (OidOutputFunctionCall (fst info) constvalue); reflexivity.
  - simpl. destruct (1 <? list_length args).
    + destruct args as [|l [|r rest]]; try reflexivity.
      inversion IH as [|? ? Hl IH']; subst.
      inversion IH' as [|? ? Hr _]; subst.
      rewrite (Hl str).
      destruct (format_expr_inner "" l rtable) as [tl| |]; simpl;
        try reflexivity.
      rewrite (Hr ((str ++ tl) ++ _)), (Hr (tl ++ _)).
      rewrite prepend_prepend. f_equal. now rewrite !append_assoc.
    + destruct args as [|l rest]; [reflexivity|].
      inversion IH as [|? ? Hl _]; subst.
      rewrite (Hl (str ++ _)), (Hl (_ ++ " ")).
      now rewrite prepend_prepend.
  - simpl.
    rewrite (foreach_args_prefix _ args IH str).
    destruct (foreach_args _ _ args) as [text| |]; simpl; try reflexivity.
    now rewrite append_assoc.
  - reflexivity.
Qed.

(** *** Column references *)

Lemma rt_fetch_in_range (varno : Z) :
  0 < varno <= list_length rtable ->
  exists rte, rt_fetch varno rtable = Some rte.
Proof.
  unfold rt_fetch, list_nth, list_length. intros [Hlo Hhi].
  destruct (varno - 1 <? 0) eqn:Hneg; [apply Z.ltb_lt in Hneg; lia|].
  destruct (nth_error rtable (Z.to_nat (varno - 1))) as [rte|] eqn:Hnth;
    [now exists rte|].
  apply nth_error_None in Hnth. lia.
Qed.

Lemma format_var_out_of_range (str : string) (varno : Z) (varattno : AttrNumber) :
  varno <> INNER_VAR -> varno <> OUTER_VAR -> varno <> INDEX_VAR ->
  ~ (0 < varno <= list_length rtable) ->
  format_expr_inner str (Var varno varattno) rtable = Done str.
Proof.
  intros Hin Hout Hidx Hrange. simpl.
  apply Z.eqb_neq in Hin, Hout, Hidx. rewrite Hin, Hout, Hidx.
  destruct ((0 <? varno) && (varno <=? list_length rtable)) eqn:Hchk;
    [|reflexivity].
  apply andb_true_iff in Hchk. destruct Hchk as [H1 H2].
  apply Z.ltb_lt in H1. apply Z.leb_le in H2. lia.
Qed.

Lemma format_var_in_range (str : string) (varno : Z) (varattno : AttrNumber)
    (rte : RangeTblEntry) :
  varno <> INNER_VAR -> varno <> OUTER_VAR -> varno <> INDEX_VAR ->
  0 < varno <= list_length rtable ->
  rt_fetch varno rtable = Some rte ->
  format_expr_inner str (Var varno varattno) rtable
  = (attname <- get_rte_attribute_name rte varattno ;;
     Done (str ++ aliasname (eref rte) ++ "." ++ attname)).
Proof.
  intros Hin Hout Hidx [Hlo Hhi] Hfetch. simpl.
  apply Z.eqb_neq in Hin, Hout, Hidx. rewrite Hin, Hout, Hidx.
  apply Z.ltb_lt in Hlo. apply Z.leb_le in Hhi. rewrite Hlo, Hhi. simpl.
  now rewrite Hfetch.
Qed.

(** *** Operator applications *)

Lemma list_length_two_or_more {A : Type} (a b : A) (rest : list A) :
  (1 <? list_length (a :: b :: rest)) = true.
Proof. apply Z.ltb_lt. unfold list_length. simpl List.length. lia. Qed.

Lemma format_opexpr_two_or_more (str : string) (opno : Oid) (l r : Expr)
    (rest : list Expr) :
  format_expr_inner str (OpExpr opno (l :: r :: rest)) rtable
  = (tl <- format_expr_inner "" l rtable ;;
     tr <- format_expr_inner "" r rtable ;;
     Done (str ++ tl ++ " " ++ opname_or_placeholder (get_opname opno)
               ++ " " ++ tr)).
Proof.
  cbn [format_expr_inner]. rewrite list_length_two_or_more.
  rewrite (format_expr_inner_prefix l str).
  destruct (format_expr_inner "" l rtable) as [tl| |]; cbn [bind prepend]; try reflexivity.
  rewrite (format_expr_inner_prefix r).
  destruct (format_expr_inner "" r rtable) as [tr| |]; cbn [bind prepend]; try reflexivity.
  f_equal. now rewrite !append_assoc.
Qed.

Lemma format_opexpr_one (str : string) (opno : Oid) (l : Expr) :
  format_expr_inner str (OpExpr opno [l]) rtable
  = (tl <- format_expr_inner "" l rtable ;;
     Done (str ++ opname_or_placeholder (get_opname opno) ++ " " ++ tl)).
Proof.
  cbn [format_expr_inner]. change (1 <? list_length [l]) with false. cbv iota.
  rewrite (format_expr_inner_prefix l).
  destruct (format_expr_inner "" l rtable) as [tl| |]; cbn [bind prepend]; try reflexivity.
  f_equal. now rewrite !append_assoc.
Qed.

(** *** Function calls *)

Lemma foreach_args_texts (f : string -> Expr -> outcome string)
    (cells : list Expr) (texts : list string) :
  (forall arg str, f str arg = prepend str (f "" arg)) ->
  Forall2 (fun arg text => f "" arg = Done text) cells texts ->
  forall buf, foreach_args f buf cells = Done (buf ++ String.concat "," texts).
Proof.
  intros Hf. induction 1 as [|arg text rest texts' Harg Hrest IH]; intros buf.
  - cbn [foreach_args String.concat]. now rewrite append_empty_r.
  - cbn [foreach_args]. rewrite (Hf arg buf), Harg. cbn [bind prepend].
    destruct Hrest as [|arg' text' rest' texts'' Harg' Hrest'].
    + reflexivity.
    + rewrite IH. f_equal. now rewrite !append_assoc.
Qed.

Lemma format_funcexpr_texts (str : string) (funcid : Oid) (args : list Expr)
    (texts : list string) :
  Forall2 (fun arg text => format_expr_inner "" arg rtable = Done text)
    args texts ->
  format_expr_inner str (FuncExpr funcid args) rtable
  = Done (str ++ funcname_or_placeholder (get_func_name funcid) ++ "("
              ++ String.concat "," texts ++ ")").
Proof.
  intros Htexts. cbn [format_expr_inner].
  rewrite (foreach_args_texts _ args texts); [| |exact Htexts].
  - cbn [bind]. f_equal. now rewrite !append_assoc.
  - intros arg buf. apply format_expr_inner_prefix.
Qed.

(** *** The call returns exactly when the traversal does *)

Lemma is_done_foreach_args (f : string -> Expr -> outcome string)
    (ok : Expr -> bool) (cells : list Expr) :
  Forall (fun arg => forall str, is_done (f str arg) = ok arg) cells ->
  forall buf, is_done (foreach_args f buf cells) = forallb ok cells.
Proof.
  induction 1 as [|arg rest Harg Hrest IH]; intros buf; simpl.
  - reflexivity.
  - rewrite <- (Harg buf).
    destruct (f buf arg) as [text| |]; simpl; try reflexivity.
    apply IH.
Qed.

Lemma is_done_format_expr_inner (expr : Expr) :
  forall str, is_done (format_expr_inner str expr rtable) = renders rtable expr.
Proof.
  induction expr as [varno varattno | consttype constvalue constisnull
                    | opno args IH | funcid args IH | tag]
    using Expr_nested_ind; intros str.
  - simpl.
    destruct (varno =? INNER_VAR); [reflexivity|].
    destruct (varno =? OUTER_VAR); [reflexivity|].
    destruct (varno =? INDEX_VAR); [reflexivity|].
    destruct (negb _); [reflexivity|].
    destruct (rt_fetch varno rtable) as [rte|]; [|reflexivity].
    destruct (get_rte_attribute_name rte varattno); reflexivity.
  - simpl. destruct constisnull; [reflexivity|].
    destruct (getTypeOutputInfo consttype) as [info| |]; simpl; try reflexivity.
    destruct (OidOutputFunctionCall (fst info) constvalue); reflexivity.
  - destruct args as [|l [|r rest]].
    + reflexivity.
    + inversion IH as [|? ? Hl _]; subst.
      rewrite format_opexpr_one.
      cbn [renders]. rewrite <- (Hl "").
      destruct (format_expr_inner "" l rtable); reflexivity.
    + inversion IH as [|? ? Hl IH']; subst.
      inversion IH' as [|? ? Hr _]; subst.
      rewrite format_opexpr_two_or_more.
      cbn [renders]. rewrite <- (Hl ""), <- (Hr "").
      destruct (format_expr_inner "" l rtable); simpl; try reflexivity.
      destruct (format_expr_inner "" r rtable); reflexivity.
  - cbn [format_expr_inner renders].
    rewrite <- (is_done_foreach_args
                  (fun buf arg => format_expr_inner buf arg rtable)
                  (renders rtable) args IH
                  (str ++ funcname_or_placeholder (get_func_name funcid) ++ "(")).
    destruct (foreach_args _ _ args); reflexivity.
  - reflexivity.
Qed.

Lemma format_text_iff (expr : Expr) (text : string) :
  pg_hacker_helper_format_expr (Some expr) rtable = Done (Some text)
  <-> format_expr_inner "" expr rtable = Done text.
Proof.
  unfold pg_hacker_helper_format_expr.
  destruct (format_expr_inner "" expr rtable) as [t| |]; cbn [bind]; split;
    intros H; try discriminate; now inversion H.
Qed.

Lemma format_expr_inner_text (str : string) (expr : Expr) (text : string) :
  pg_hacker_helper_format_expr (Some expr) rtable = Done (Some text) ->
  format_expr_inner str expr rtable = Done (str ++ text).
Proof.
  intros H. apply format_text_iff in H.
  now rewrite format_expr_inner_prefix, H.
Qed.

Lemma format_returns_iff (expr : Expr) :
  (exists text,
      pg_hacker_helper_format_expr (Some expr) rtable = Done (Some text))
  <-> renders rtable expr = true.
Proof.
  rewrite <- (is_done_format_expr_inner expr ""). unfold pg_hacker_helper_format_expr.
  destruct (format_expr_inner "" expr rtable) as [text| |]; simpl; split;
    intros H; try discriminate; eauto; destruct H as [t H]; discriminate.
Qed.

End Properties.

(** ** The properties of the specification *)

(** *** Column references *)

(** C8. A column reference whose [varno] is one of the special slots INNER,
    OUTER or INDEX is rendered as ["INNER.?"], ["OUTER.?"] or ["INDEX.?"],
    whatever the range table and the attribute number are. *)
Theorem special_slot_text {pg : Backend} (rtable : list RangeTblEntry)
    (varattno : AttrNumber) :
  pg_hacker_helper_format_expr (Some (Var INNER_VAR varattno)) rtable
  = Done (Some "INNER.?")
  /\ pg_hacker_helper_format_expr (Some (Var OUTER_VAR varattno)) rtable
     = Done (Some "OUTER.?")
  /\ pg_hacker_helper_format_expr (Some (Var INDEX_VAR varattno)) rtable
     = Done (Some "INDEX.?").
Proof.
  destruct special_varnos_distinct as (Hio & Hix & Hox).
  unfold pg_hacker_helper_format_expr. cbn [format_expr_inner].
  rewrite !Z.eqb_refl.
  assert (H1 : (OUTER_VAR =? INNER_VAR) = false) by (apply Z.eqb_neq; congruence).
  assert (H2 : (INDEX_VAR =? INNER_VAR) = false) by (apply Z.eqb_neq; congruence).
  assert (H3 : (INDEX_VAR =? OUTER_VAR) = false) by (apply Z.eqb_neq; congruence).
  rewrite H1, H2, H3. repeat split.
Qed.

(** C4. A column reference whose relation index [i] satisfies
    [1 <= i <= length rtable] is rendered as the alias of the [i]-th range
    table entry, a dot, and the attribute name the backend resolves for the
    attribute number; this is what the node appends to any buffer. *)
Theorem in_range_column_text {pg : Backend} (rtable : list RangeTblEntry)
    (i : Z) (varattno : AttrNumber) (rte : RangeTblEntry) (attname : string) :
  i <> INNER_VAR -> i <> OUTER_VAR -> i <> INDEX_VAR ->
  1 <= i <= list_length rtable ->
  nth_error rtable (Z.to_nat (i - 1)) = Some rte ->
  get_rte_attribute_name rte varattno = Done attname ->
  pg_hacker_helper_format_expr (Some (Var i varattno)) rtable
  = Done (Some (aliasname (eref rte) ++ "." ++ attname))
  /\ forall str,
       format_expr_inner str (Var i varattno) rtable
       = Done (str ++ aliasname (eref rte) ++ "." ++ attname).
Proof.
  intros Hin Hout Hidx Hrange Hnth Hname.
  assert (Hfetch : rt_fetch i rtable = Some rte).
  { unfold rt_fetch, list_nth.
    destruct (i - 1 <? 0) eqn:Hneg; [apply Z.ltb_lt in Hneg; lia | exact Hnth]. }
  assert (Hinner : forall str,
             format_expr_inner str (Var i varattno) rtable
             = Done (str ++ aliasname (eref rte) ++ "." ++ attname)).
  { intros str.
    rewrite (format_var_in_range rtable str i varattno rte) by (auto; lia).
    now rewrite Hname. }
  split; [|exact Hinner].
  apply format_text_iff. apply (Hinner "").
Qed.

Lemma in_range_column_text_witness :
  pg_hacker_helper_format_expr (pg := sample_backend) (Some (Var 2 2))
    sample_rtable
  = Done (Some "d.title").
Proof.
  apply (in_range_column_text (pg := sample_backend) sample_rtable 2 2
           (mkRTE (mkAlias "d" ["id"; "title"])) "title").
  - discriminate.
  - discriminate.
  - discriminate.
  - unfold list_length; simpl; lia.
  - reflexivity.
  - reflexivity.
Defined.

(** C1, as the code has it.  A column reference whose relation index is
    outside [1, length rtable] returns without raising and appends nothing
    for that node.  Only that node is skipped: the [return] leaves one
    invocation of [format_expr_inner], and the enclosing node goes on with
    the rest of its text, so a binary operator application with such a left
    operand still appends the operator name and the right operand. *)
Theorem out_of_range_column_skips_only_itself {pg : Backend}
    (rtable : list RangeTblEntry) (varno : Z) (varattno : AttrNumber) :
  varno <> INNER_VAR -> varno <> OUTER_VAR -> varno <> INDEX_VAR ->
  ~ (1 <= varno <= list_length rtable) ->
  pg_hacker_helper_format_expr (Some (Var varno varattno)) rtable
  = Done (Some "")
  /\ (forall str, format_expr_inner str (Var varno varattno) rtable = Done str)
  /\ (forall str opno sibling,
        format_expr_inner str (OpExpr opno [Var varno varattno; sibling]) rtable
        = format_expr_inner
            (str ++ " " ++ opname_or_placeholder (get_opname opno) ++ " ")
            sibling rtable).
Proof.
  intros Hin Hout Hidx Hrange.
  assert (Hskip : forall str,
             format_expr_inner str (Var varno varattno) rtable = Done str).
  { intros str. apply format_var_out_of_range; auto. lia. }
  split; [|split].
  - apply format_text_iff. apply Hskip.
  - exact Hskip.
  - intros str opno sibling.
    cbn [format_expr_inner]. rewrite list_length_two_or_more.
    pose proof (Hskip str) as Hs. cbn [format_expr_inner] in Hs.
    rewrite Hs. reflexivity.
Qed.

Lemma out_of_range_column_skips_only_itself_witness :
  pg_hacker_helper_format_expr (pg := sample_backend) (Some (Var 9 3))
    sample_rtable
  = Done (Some "").
Proof.
  apply (out_of_range_column_skips_only_itself (pg := sample_backend)
           sample_rtable 9 3).
  - discriminate.
  - discriminate.
  - discriminate.
  - unfold list_length; simpl; lia.
Defined.

(** C1, as the specification states it, fails.  The range table has two
    entries and the left operand refers to relation 9; when that operand is
    reached the buffer is still empty, yet the call returns the operator and
    the right operand, the text of the sibling [Var 2 1]. *)
Lemma out_of_range_column_keeps_siblings :
  ~ (1 <= 9 <= list_length sample_rtable)
  /\ pg_hacker_helper_format_expr (pg := sample_backend)
       (Some (OpExpr 96 [Var 9 3; Var 2 1])) sample_rtable
     = Done (Some " = d.id")
  /\ pg_hacker_helper_format_expr (pg := sample_backend)
       (Some (FuncExpr 870 [Var 9 3; Const 16 0 true])) sample_rtable
     = Done (Some "lower(,NULL)").
Proof.
  split; [unfold list_length; simpl; lia|].
  split; reflexivity.
Qed.

(** *** Returning *)

(** C2, as the code has it.  The formatter raises nothing of its own: the
    call returns text exactly when the traversal does, that is when each
    attribute-name and type-output lookup it makes returns and each operator
    application has an operand.  Operator and function ids the catalog does
    not know, relation indexes out of range and node kinds the formatter
    does not support never stop it. *)
Theorem returns_text_iff_renders {pg : Backend} (rtable : list RangeTblEntry)
    (expr : Expr) :
  ((exists text,
       pg_hacker_helper_format_expr (Some expr) rtable = Done (Some text))
   <-> renders rtable expr = true)
  /\ (forall tag,
        pg_hacker_helper_format_expr (Some (OtherNode tag)) rtable
        = Done (Some "unknown expr")).
Proof.
  split; [apply format_returns_iff | reflexivity].
Qed.

(** C2, as the specification states it, fails.  Relation 1 is in range and
    has three columns; for attribute number 99 the attribute-name lookup
    reports an error, and the error leaves the format call. *)
Lemma bogus_attribute_number_raises :
  1 <= 1 <= list_length sample_rtable
  /\ pg_hacker_helper_format_expr (pg := sample_backend) (Some (Var 1 99))
       sample_rtable
     = Raised "invalid attnum for rangetable entry".
Proof.
  split; [unfold list_length; simpl; lia | reflexivity].
Qed.

(** C3, as the code has it.  A NULL node gives NULL and no error.  For a
    node that is not NULL the call never returns NULL: whenever it returns, it
    returns a string, and it returns whenever the traversal does. *)
Theorem null_result_iff_null_node {pg : Backend} (rtable : list RangeTblEntry) :
  pg_hacker_helper_format_expr None rtable = Done None
  /\ (forall expr result,
        pg_hacker_helper_format_expr expr rtable = Done result ->
        (result = None <-> expr = None))
  /\ (forall expr,
        renders rtable expr = true ->
        exists text,
          pg_hacker_helper_format_expr (Some expr) rtable = Done (Some text)).
Proof.
  split; [reflexivity|]. split.
  - intros [expr|] result H.
    + unfold pg_hacker_helper_format_expr in H.
      destruct (format_expr_inner "" expr rtable); cbn [bind] in H;
        try discriminate.
      inversion H; subst. split; discriminate.
    + inversion H; subst. split; reflexivity.
  - intros expr H. now apply format_returns_iff.
Qed.

Lemma null_result_iff_null_node_witness :
  exists text,
    pg_hacker_helper_format_expr (pg := sample_backend)
      (Some (FuncExpr 7 [Var 9 3; OpExpr 8 [Const 16 1 false]])) sample_rtable
    = Done (Some text).
Proof.
  apply (null_result_iff_null_node (pg := sample_backend) sample_rtable).
  reflexivity.
Defined.

(** C3, as the specification states it, fails.  The constant is not NULL and
    its type id is not in the type catalog: the type-output lookup reports an
    error and the call returns no string. *)
Lemma unknown_type_returns_no_string :
  pg_hacker_helper_format_expr (pg := sample_backend)
    (Some (Const 0 5 false)) sample_rtable
  = Raised "cache lookup failed for type".
Proof. reflexivity. Qed.

(** *** Constants *)

(** C7. A constant with [constisnull] set is rendered as ["NULL"], whatever
    its type id and its value are; this is what the node appends to any
    buffer. *)
Theorem null_constant_text {pg : Backend} (rtable : list RangeTblEntry)
    (consttype : Oid) (constvalue : Datum) :
  pg_hacker_helper_format_expr (Some (Const consttype constvalue true)) rtable
  = Done (Some "NULL")
  /\ forall str,
       format_expr_inner str (Const consttype constvalue true) rtable
       = Done (str ++ "NULL").
Proof. split; reflexivity. Qed.

(** *** Operator applications *)

(** C5. An operator application with the two operands [a] and [b] is
    rendered as the text of [a], a space, the operator name, a space and the
    text of [b]; the name is the one the catalog has for the operator id, and
    ["(invalid operator)"] between the same two spaces when it has none. *)
Theorem binary_operator_text {pg : Backend} (rtable : list RangeTblEntry)
    (opno : Oid) (a b : Expr) (ta tb : string) :
  pg_hacker_helper_format_expr (Some a) rtable = Done (Some ta) ->
  pg_hacker_helper_format_expr (Some b) rtable = Done (Some tb) ->
  (forall name,
      get_opname opno = Some name ->
      pg_hacker_helper_format_expr (Some (OpExpr opno [a; b])) rtable
      = Done (Some (ta ++ " " ++ name ++ " " ++ tb)))
  /\ (get_opname opno = None ->
      pg_hacker_helper_format_expr (Some (OpExpr opno [a; b])) rtable
      = Done (Some (ta ++ " " ++ "(invalid operator)" ++ " " ++ tb)))
  /\ (forall str,
        format_expr_inner str (OpExpr opno [a; b]) rtable
        = Done (str ++ ta ++ " " ++ opname_or_placeholder (get_opname opno)
                    ++ " " ++ tb)).
Proof.
  intros Ha Hb. apply format_text_iff in Ha, Hb.
  assert (Hinner : forall str,
             format_expr_inner str (OpExpr opno [a; b]) rtable
             = Done (str ++ ta ++ " " ++ opname_or_placeholder (get_opname opno)
                         ++ " " ++ tb)).
  { intros str. now rewrite format_opexpr_two_or_more, Ha, Hb. }
  split; [|split].
  - intros name Hname. apply format_text_iff.
    rewrite (Hinner ""), Hname. reflexivity.
  - intros Hname. apply format_text_iff.
    rewrite (Hinner ""), Hname. reflexivity.
  - exact Hinner.
Qed.

Lemma binary_operator_text_witness :
  pg_hacker_helper_format_expr (pg := sample_backend)
    (Some (OpExpr 4 [Var 1 2; OtherNode 7])) sample_rtable
  = Done (Some ("emp.name" ++ " " ++ "(invalid operator)" ++ " "
                  ++ "unknown expr")).
Proof.
  apply (binary_operator_text (pg := sample_backend) sample_rtable 4%N
           (Var 1 2) (OtherNode 7) "emp.name" "unknown expr").
  - reflexivity.
  - reflexivity.
  - reflexivity.
Defined.

(** C9. An operator application with one operand is rendered in prefix
    form: the operator name, or ["(invalid operator)"] when the catalog has
    none, then one space, then the text of the operand. *)
Theorem unary_operator_text {pg : Backend} (rtable : list RangeTblEntry)
    (opno : Oid) (a : Expr) (ta : string) :
  pg_hacker_helper_format_expr (Some a) rtable = Done (Some ta) ->
  (forall name,
      get_opname opno = Some name ->
      pg_hacker_helper_format_expr (Some (OpExpr opno [a])) rtable
      = Done (Some (name ++ " " ++ ta)))
  /\ (get_opname opno = None ->
      pg_hacker_helper_format_expr (Some (OpExpr opno [a])) rtable
      = Done (Some ("(invalid operator)" ++ " " ++ ta)))
  /\ (forall str,
        format_expr_inner str (OpExpr opno [a]) rtable
        = Done (str ++ opname_or_placeholder (get_opname opno) ++ " " ++ ta)).
Proof.
  intros Ha. apply format_text_iff in Ha.
  assert (Hinner : forall str,
             format_expr_inner str (OpExpr opno [a]) rtable
             = Done (str ++ opname_or_placeholder (get_opname opno)
                         ++ " " ++ ta)).
  { intros str. now rewrite format_opexpr_one, Ha. }
  split; [|split].
  - intros name Hname. apply format_text_iff.
    rewrite (Hinner ""), Hname. reflexivity.
  - intros Hname. apply format_text_iff.
    rewrite (Hinner ""), Hname. reflexivity.
  - exact Hinner.
Qed.

Lemma unary_operator_text_witness :
  pg_hacker_helper_format_expr (pg := sample_backend)
    (Some (OpExpr 558 [Var (-2) 1])) sample_rtable
  = Done (Some ("-" ++ " " ++ "OUTER.?")).
Proof.
  apply (unary_operator_text (pg := sample_backend) sample_rtable 558%N
           (Var (-2) 1) "OUTER.?").
  - reflexivity.
  - reflexivity.
Defined.

(** C10. An operator application with more than two operands is rendered as
    the one with its first two operands alone: the infix form of the first
    and the second operand.  The operands after the second are not visited
    and add no text. *)
Theorem extra_operands_ignored {pg : Backend} (rtable : list RangeTblEntry)
    (opno : Oid) (a b c : Expr) (more : list Expr) :
  pg_hacker_helper_format_expr (Some (OpExpr opno (a :: b :: c :: more))) rtable
  = pg_hacker_helper_format_expr (Some (OpExpr opno [a; b])) rtable
  /\ (forall ta tb,
        pg_hacker_helper_format_expr (Some a) rtable = Done (Some ta) ->
        pg_hacker_helper_format_expr (Some b) rtable = Done (Some tb) ->
        pg_hacker_helper_format_expr (Some (OpExpr opno (a :: b :: c :: more)))
          rtable
        = Done (Some (ta ++ " " ++ opname_or_placeholder (get_opname opno)
                         ++ " " ++ tb))).
Proof.
  split.
  - unfold pg_hacker_helper_format_expr.
    now rewrite !format_opexpr_two_or_more.
  - intros ta tb Ha Hb. apply format_text_iff in Ha, Hb.
    apply format_text_iff.
    now rewrite format_opexpr_two_or_more, Ha, Hb.
Qed.

Lemma extra_operands_ignored_witness :
  pg_hacker_helper_format_expr (pg := sample_backend)
    (Some (OpExpr 551 [Var 1 1; Var 2 1; Var 1 99; Const 0 5 false]))
    sample_rtable
  = Done (Some ("emp.id" ++ " " ++ "+" ++ " " ++ "d.id")).
Proof.
  apply (proj2 (extra_operands_ignored (pg := sample_backend) sample_rtable
                  551%N (Var 1 1) (Var 2 1) (Var 1 99) [Const 0 5 false])
           "emp.id" "d.id").
  - reflexivity.
  - reflexivity.
Defined.

(** *** Function calls *)

(** C6. A function call is rendered as the function name, or
    ["(invalid function)"] when the catalog has none for the id, then ["("],
    the texts of the arguments in order with one comma and no space between
    two of them, then [")"]; without arguments this is the name and ["()"]. *)
Theorem function_call_text {pg : Backend} (rtable : list RangeTblEntry)
    (funcid : Oid) (args : list Expr) (texts : list string) :
  Forall2
    (fun arg text =>
       pg_hacker_helper_format_expr (Some arg) rtable = Done (Some text))
    args texts ->
  (forall name,
      get_func_name funcid = Some name ->
      pg_hacker_helper_format_expr (Some (FuncExpr funcid args)) rtable
      = Done (Some (name ++ "(" ++ String.concat "," texts ++ ")"))
      /\ pg_hacker_helper_format_expr (Some (FuncExpr funcid [])) rtable
         = Done (Some (name ++ "()")))
  /\ (get_func_name funcid = None ->
      pg_hacker_helper_format_expr (Some (FuncExpr funcid args)) rtable
      = Done (Some ("(invalid function)" ++ "(" ++ String.concat "," texts
                      ++ ")")))
  /\ (forall str,
        format_expr_inner str (FuncExpr funcid args) rtable
        = Done (str ++ funcname_or_placeholder (get_func_name funcid) ++ "("
                    ++ String.concat "," texts ++ ")")).
Proof.
  intros Htexts.
  assert (Hinner : forall str,
             format_expr_inner str (FuncExpr funcid args) rtable
             = Done (str ++ funcname_or_placeholder (get_func_name funcid)
                         ++ "(" ++ String.concat "," texts ++ ")")).
  { intros str. apply format_funcexpr_texts.
    induction Htexts as [|arg text rest texts' Harg _ IH]; constructor.
    - now apply format_text_iff.
    - exact IH. }
  split; [|split].
  - intros name Hname. split; apply format_text_iff.
    + rewrite (Hinner ""), Hname. reflexivity.
    + rewrite (format_funcexpr_texts rtable "" funcid [] []) by constructor.
      rewrite Hname. reflexivity.
  - intros Hname. apply format_text_iff.
    rewrite (Hinner ""), Hname. reflexivity.
  - exact Hinner.
Qed.

Lemma function_call_text_witness :
  pg_hacker_helper_format_expr (pg := sample_backend)
    (Some (FuncExpr 870 [Var 1 2; Const 16 1 false; Var 9 1])) sample_rtable
  = Done (Some ("lower" ++ "(" ++ String.concat "," ["emp.name"; "t"; ""]
                  ++ ")")).
Proof.
  apply (function_call_text (pg := sample_backend) sample_rtable 870%N
           [Var 1 2; Const 16 1 false; Var 9 1] ["emp.name"; "t"; ""]).
  - repeat constructor.
  - reflexivity.
Defined.

(** ** Further properties of the formatter *)

(** *** The buffer *)

Section MoreProperties.

Context {pg : Backend}.

Variable rtable : list RangeTblEntry.

Lemma append_eq_empty (a b : string) : a ++ b = "" -> a = "" /\ b = "".
Proof.
  destruct a as [|ch a]; simpl; intros H; [now split | discriminate].
Qed.

Lemma format_inner_eq_of_format (a a' : Expr) :
  pg_hacker_helper_format_expr (Some a) rtable
  = pg_hacker_helper_format_expr (Some a') rtable ->
  format_expr_inner "" a rtable = format_expr_inner "" a' rtable.
Proof.
  unfold pg_hacker_helper_format_expr.
  destruct (format_expr_inner "" a rtable);
    destruct (format_expr_inner "" a' rtable); cbn [bind]; intros H;
    try discriminate; now inversion H.
Qed.

Lemma format_of_inner (expr : Expr) :
  pg_hacker_helper_format_expr (Some expr) rtable
  = (data <- format_expr_inner "" expr rtable ;; Done (Some data)).
Proof. reflexivity. Qed.

Lemma varno_guard_in_range (varno : Z) :
  negb ((0 <? varno) && (varno <=? list_length rtable)) = false ->
  0 < varno <= list_length rtable.
Proof.
  intros H. apply negb_false_iff, andb_true_iff in H. destruct H as [H1 H2].
  apply Z.ltb_lt in H1. apply Z.leb_le in H2. lia.
Qed.

End MoreProperties.

(** X1. The formatter only appends: formatting a node into a buffer that
    holds [str] gives [str] followed by the text the node has on its own, and
    when the node raises or faults on its own it does so for every buffer. *)
Theorem buffer_only_appended {pg : Backend} (rtable : list RangeTblEntry)
    (expr : Expr) (str : string) :
  (forall text,
      pg_hacker_helper_format_expr (Some expr) rtable = Done (Some text)
      <-> format_expr_inner str expr rtable = Done (str ++ text))
  /\ (forall out,
        format_expr_inner str expr rtable = Done out ->
        exists text,
          out = str ++ text
          /\ pg_hacker_helper_format_expr (Some expr) rtable = Done (Some text))
  /\ (forall msg,
        pg_hacker_helper_format_expr (Some expr) rtable = Raised msg
        <-> format_expr_inner str expr rtable = Raised msg)
  /\ (pg_hacker_helper_format_expr (Some expr) rtable = Fault
      <-> format_expr_inner str expr rtable = Fault).
Proof.
  rewrite (format_expr_inner_prefix rtable expr str).
  unfold pg_hacker_helper_format_expr, prepend.
  destruct (format_expr_inner "" expr rtable) as [t|m|]; cbn [bind].
  - repeat split; try discriminate.
    + intros H. now inversion H.
    + intros H. inversion H as [H1]. clear H.
      revert H1. revert t text. induction str as [|ch str' IH]; simpl.
      * intros t text H. now subst.
      * intros t text H. inversion H as [H2]. now apply IH in H2.
    + intros out H. inversion H; subst. now exists t.
  - repeat split; try discriminate.
    + intros H. now inversion H.
    + intros H. now inversion H.
  - repeat split; discriminate.
Qed.

Lemma buffer_only_appended_witness :
  exists text,
    "lower(" ++ "d.id" = "lower(" ++ text
    /\ pg_hacker_helper_format_expr (pg := sample_backend) (Some (Var 2 1))
         sample_rtable = Done (Some text).
Proof.
  apply (proj1 (proj2 (buffer_only_appended (pg := sample_backend)
                         sample_rtable (Var 2 1) "lower("))
           ("lower(" ++ "d.id")).
  reflexivity.
Defined.

(** *** Reads stay inside the tree and the range table *)

Section NoFault.

Context {pg : Backend}.

Variable rtable : list RangeTblEntry.

Hypothesis attribute_name_no_fault :
  forall rte attnum, get_rte_attribute_name rte attnum <> Fault.
Hypothesis type_output_info_no_fault :
  forall type, getTypeOutputInfo type <> Fault.
Hypothesis output_function_no_fault :
  forall functionId val, OidOutputFunctionCall functionId val <> Fault.

Lemma foreach_args_no_fault (f : string -> Expr -> outcome string)
    (cells : list Expr) :
  Forall (fun arg => forall str, f str arg <> Fault) cells ->
  forall buf, foreach_args f buf cells <> Fault.
Proof.
  induction 1 as [|arg rest Harg _ IH]; intros buf; cbn [foreach_args].
  - discriminate.
  - specialize (Harg buf).
    destruct (f buf arg) as [buf1| |]; cbn [bind];
      [apply IH | discriminate | exact Harg].
Qed.

Lemma forallb_Forall_imp {A : Type} (ok : A -> bool) (P : A -> Prop)
    (l : list A) :
  Forall (fun x => ok x = true -> P x) l ->
  forallb ok l = true -> Forall P l.
Proof.
  induction 1 as [|x xs Hx _ IH]; cbn [forallb]; intros Hall.
  - constructor.
  - apply andb_true_iff in Hall. destruct Hall as [H1 H2].
    constructor; auto.
Qed.

Lemma format_expr_inner_no_fault (expr : Expr) :
  has_operands expr = true ->
  forall str, format_expr_inner str expr rtable <> Fault.
Proof.
  induction expr as [varno varattno | consttype constvalue constisnull
                    | opno args IH | funcid args IH | tag]
    using Expr_nested_ind; intros Hshape str.
  - cbn [format_expr_inner].
    destruct (varno =? INNER_VAR); [discriminate|].
    destruct (varno =? OUTER_VAR); [discriminate|].
    destruct (varno =? INDEX_VAR); [discriminate|].
    destruct (negb _) eqn:Hguard; [discriminate|].
    apply varno_guard_in_range in Hguard.
    destruct (rt_fetch_in_range rtable varno Hguard) as [rte Hrte].
    rewrite Hrte. cbn zeta.
    pose proof (attribute_name_no_fault rte varattno) as Hname.
    destruct (get_rte_attribute_name rte varattno); cbn [bind];
      [discriminate | discriminate | exact Hname].
  - cbn [format_expr_inner]. destruct constisnull; [discriminate|].
    pose proof (type_output_info_no_fault consttype) as Hinfo.
    destruct (getTypeOutputInfo consttype) as [info| |]; cbn [bind];
      [| discriminate | now contradiction Hinfo].
    pose proof (output_function_no_fault (fst info) constvalue) as Hout.
    destruct (OidOutputFunctionCall (fst info) constvalue); cbn [bind];
      [discriminate | discriminate | exact Hout].
  - cbn [has_operands] in Hshape.
    destruct args as [|l rest]; [discriminate|].
    pose proof (forallb_Forall_imp _ _ _ IH Hshape) as Hargs.
    inversion Hargs as [|? ? Hl Hrest]; subst.
    destruct rest as [|r rest'].
    + rewrite format_opexpr_one. specialize (Hl "").
      destruct (format_expr_inner "" l rtable); cbn [bind];
        [discriminate | discriminate | exact Hl].
    + inversion Hrest as [|? ? Hr _]; subst.
      cbn [format_expr_inner]. rewrite list_length_two_or_more.
      specialize (Hl str).
      destruct (format_expr_inner str l rtable) as [str1| |]; cbn [bind];
        [apply Hr | discriminate | exact Hl].
  - cbn [has_operands] in Hshape.
    pose proof (forallb_Forall_imp _ _ _ IH Hshape) as Hargs.
    cbn [format_expr_inner].
    pose proof (foreach_args_no_fault
                  (fun buf arg => format_expr_inner buf arg rtable) args Hargs
                  (str ++ funcname_or_placeholder (get_func_name funcid) ++ "("))
      as Hloop.
    destruct (foreach_args _ _ args); cbn [bind];
      [discriminate | discriminate | exact Hloop].
  - discriminate.
Qed.

End NoFault.

Lemma sample_backend_no_fault :
  (forall rte attnum, sample_get_rte_attribute_name rte attnum <> Fault)
  /\ (forall type, sample_getTypeOutputInfo type <> Fault)
  /\ (forall functionId val,
        sample_OidOutputFunctionCall functionId val <> Fault).
Proof.
  split; [|split].
  - intros rte attnum. unfold sample_get_rte_attribute_name.
    destruct (attnum =? 0); [discriminate|].
    destruct ((0 <? attnum) && (attnum <=? list_length (colnames (eref rte))))
      eqn:Hrange; [|discriminate].
    apply andb_true_iff in Hrange. destruct Hrange as [H1 H2].
    apply Z.ltb_lt in H1. apply Z.leb_le in H2.
    unfold list_nth, list_length in *.
    destruct (attnum - 1 <? 0) eqn:Hneg; [apply Z.ltb_lt in Hneg; lia|].
    destruct (nth_error (colnames (eref rte)) (Z.to_nat (attnum - 1)))
      eqn:Hnth; [discriminate|].
    apply nth_error_None in Hnth. lia.
  - intros type. unfold sample_getTypeOutputInfo.
    destruct type as [|p]; [discriminate|].
    repeat (destruct p as [p|p|]; try discriminate).
  - intros functionId val. unfold sample_OidOutputFunctionCall.
    destruct functionId as [|p]; [discriminate|].
    repeat (destruct p as [p|p|]; try discriminate).
Qed.

(** X2. The formatter reads nothing it must not: when the lookups of the
    backend do not fault and every operator application of the tree has an
    operand, no call faults.  The test on [varno] keeps [rt_fetch] inside
    the range table for every [varno] and every range table, the empty one
    included.  An operator application without operands is where it does
    fault, on the NULL that [get_leftop] returns. *)
Theorem formatter_never_faults {pg : Backend} (rtable : list RangeTblEntry)
    (expr : Expr) :
  (forall rte attnum, get_rte_attribute_name rte attnum <> Fault) ->
  (forall type, getTypeOutputInfo type <> Fault) ->
  (forall functionId val, OidOutputFunctionCall functionId val <> Fault) ->
  has_operands expr = true ->
  pg_hacker_helper_format_expr (Some expr) rtable <> Fault
  /\ (forall str, format_expr_inner str expr rtable <> Fault)
  /\ (forall opno, pg_hacker_helper_format_expr (Some (OpExpr opno [])) rtable
                   = Fault).
Proof.
  intros Hname Hinfo Hout Hshape.
  assert (Hinner : forall str, format_expr_inner str expr rtable <> Fault).
  { now apply format_expr_inner_no_fault. }
  split; [|split].
  - unfold pg_hacker_helper_format_expr. specialize (Hinner "").
    destruct (format_expr_inner "" expr rtable); cbn [bind];
      [discriminate | discriminate | now contradiction Hinner].
  - exact Hinner.
  - reflexivity.
Qed.

Lemma formatter_never_faults_witness :
  pg_hacker_helper_format_expr (pg := sample_backend)
    (Some (FuncExpr 870 [Var 1 99; OpExpr 551 [Var 0 1; Var 3 1; Var 2 7]]))
    [] <> Fault.
Proof.
  apply (formatter_never_faults (pg := sample_backend) []
           (FuncExpr 870 [Var 1 99; OpExpr 551 [Var 0 1; Var 3 1; Var 2 7]])).
  - apply sample_backend_no_fault.
  - apply sample_backend_no_fault.
  - apply sample_backend_no_fault.
  - reflexivity.
Defined.

(** *** Constants that are not NULL *)

(** X3. A constant that is not NULL is rendered as the text its type's
    output function gives for its value, with nothing added; of what
    [getTypeOutputInfo] reports only the output function is used, the
    varlena flag is not.  An error of either lookup is the error of the
    call. *)
Theorem nonnull_constant_text {pg : Backend} (rtable : list RangeTblEntry)
    (consttype : Oid) (constvalue : Datum) (typoutput : Oid)
    (typIsVarlena : bool) :
  getTypeOutputInfo consttype = Done (typoutput, typIsVarlena) ->
  (forall outputstr,
      OidOutputFunctionCall typoutput constvalue = Done outputstr ->
      pg_hacker_helper_format_expr (Some (Const consttype constvalue false))
        rtable
      = Done (Some outputstr)
      /\ forall str,
           format_expr_inner str (Const consttype constvalue false) rtable
           = Done (str ++ outputstr))
  /\ (forall msg,
        OidOutputFunctionCall typoutput constvalue = Raised msg ->
        pg_hacker_helper_format_expr (Some (Const consttype constvalue false))
          rtable
        = Raised msg).
Proof.
  intros Hinfo. unfold pg_hacker_helper_format_expr.
  cbn [format_expr_inner]. rewrite Hinfo. cbn [bind fst].
  split.
  - intros outputstr Hout. rewrite Hout. split; reflexivity.
  - intros msg Hout. rewrite Hout. reflexivity.
Qed.

Lemma nonnull_constant_text_witness :
  pg_hacker_helper_format_expr (pg := sample_backend)
    (Some (Const 16 0 false)) sample_rtable
  = Done (Some "f").
Proof.
  apply (proj1 (nonnull_constant_text (pg := sample_backend) sample_rtable
                  16%N 0%N 1242%N false eq_refl) "f").
  reflexivity.
Defined.

(** *** Composition *)

Section Composition.

Context {pg : Backend}.

Variable rtable : list RangeTblEntry.

Lemma foreach_args_congruence (f : string -> Expr -> outcome string)
    (cells cells' : list Expr) :
  (forall arg str, f str arg = prepend str (f "" arg)) ->
  Forall2 (fun arg arg' => f "" arg = f "" arg') cells cells' ->
  forall buf, foreach_args f buf cells = foreach_args f buf cells'.
Proof.
  intros Hf. induction 1 as [|arg arg' rest rest' Harg Hrest IH]; intros buf.
  - reflexivity.
  - cbn [foreach_args]. rewrite (Hf arg buf), (Hf arg' buf), Harg.
    destruct (f "" arg') as [text| |]; cbn [prepend bind]; try reflexivity.
    destruct Hrest; [reflexivity | apply IH].
Qed.

Lemma foreach_args_first_failure (f : string -> Expr -> outcome string)
    (before : list Expr) (texts : list string) (bad : Expr) (later : list Expr)
    (failure : outcome string) :
  (forall arg str, f str arg = prepend str (f "" arg)) ->
  Forall2 (fun arg text => f "" arg = Done text) before texts ->
  f "" bad = failure -> is_done failure = false ->
  forall buf,
    foreach_args f buf (before ++ bad :: later)%list
    = prepend buf failure.
Proof.
  intros Hf Hbefore Hbad Hfail.
  induction Hbefore as [|arg text rest texts' Harg _ IH]; intros buf.
  - cbn [app foreach_args]. rewrite (Hf bad buf), Hbad.
    destruct failure; [discriminate | reflexivity | reflexivity].
  - cbn [app foreach_args]. rewrite (Hf arg buf), Harg. cbn [prepend bind].
    destruct rest as [|next rest'].
    + cbn [app]. rewrite IH.
      destruct failure; [discriminate | reflexivity | reflexivity].
    + cbn [app]. cbn [app] in IH. rewrite IH.
      destruct failure; [discriminate | reflexivity | reflexivity].
Qed.

End Composition.

(** X4. The text of a node depends on its arguments only through what they
    format to.  Replacing each argument of a function call, or each operand
    of an operator application, by one with the same outcome (the same text
    or the same error) leaves the outcome of the call the same. *)
Theorem arguments_matter_by_outcome {pg : Backend}
    (rtable : list RangeTblEntry) (args args' : list Expr) :
  Forall2
    (fun arg arg' =>
       pg_hacker_helper_format_expr (Some arg) rtable
       = pg_hacker_helper_format_expr (Some arg') rtable)
    args args' ->
  (forall funcid,
      pg_hacker_helper_format_expr (Some (FuncExpr funcid args)) rtable
      = pg_hacker_helper_format_expr (Some (FuncExpr funcid args')) rtable)
  /\ (forall opno,
        pg_hacker_helper_format_expr (Some (OpExpr opno args)) rtable
        = pg_hacker_helper_format_expr (Some (OpExpr opno args')) rtable).
Proof.
  intros Hargs.
  assert (Hinner : Forall2
                     (fun arg arg' =>
                        format_expr_inner "" arg rtable
                        = format_expr_inner "" arg' rtable) args args').
  { induction Hargs as [|arg arg' rest rest' Harg _ IH]; constructor.
    - now apply format_inner_eq_of_format.
    - exact IH. }
  split.
  - intros funcid. rewrite !format_of_inner. cbn [format_expr_inner].
    rewrite (foreach_args_congruence
               (fun buf arg => format_expr_inner buf arg rtable) args args');
      [reflexivity | | exact Hinner].
    intros arg str. apply format_expr_inner_prefix.
  - intros opno. rewrite !format_of_inner.
    destruct Hinner as [|l l' rest rest' Hl Hrest]; [reflexivity|].
    destruct Hrest as [|r r' rest rest' Hr Hrest].
    + now rewrite !format_opexpr_one, Hl.
    + now rewrite !format_opexpr_two_or_more, Hl, Hr.
Qed.

Lemma arguments_matter_by_outcome_witness :
  pg_hacker_helper_format_expr (pg := sample_backend)
    (Some (FuncExpr 870 [Var 5 1; Var 1 99; Var (-1) 0])) sample_rtable
  = pg_hacker_helper_format_expr (pg := sample_backend)
      (Some (FuncExpr 870 [Var 0 2; Var 2 (-4); Var (-1) 8])) sample_rtable.
Proof.
  apply (arguments_matter_by_outcome (pg := sample_backend) sample_rtable
           [Var 5 1; Var 1 99; Var (-1) 0] [Var 0 2; Var 2 (-4); Var (-1) 8]).
  repeat constructor.
Defined.

(** X5. The first failure is the outcome of the call, and the text gathered
    before it is not returned.  In a function call whose arguments before
    [bad] format to text and whose argument [bad] raises or faults, the call
    ends the same way whatever the later arguments are; the same holds for
    the left operand of an operator application, and for the right operand
    when the left one formats to text. *)
Theorem first_failure_is_outcome {pg : Backend} (rtable : list RangeTblEntry)
    (bad : Expr) (failure : outcome (option string)) :
  pg_hacker_helper_format_expr (Some bad) rtable = failure ->
  is_done failure = false ->
  (forall funcid before texts later,
      Forall2
        (fun arg text =>
           pg_hacker_helper_format_expr (Some arg) rtable = Done (Some text))
        before texts ->
      pg_hacker_helper_format_expr
        (Some (FuncExpr funcid (before ++ bad :: later)%list)) rtable
      = failure)
  /\ (forall opno later,
        pg_hacker_helper_format_expr (Some (OpExpr opno (bad :: later))) rtable
        = failure)
  /\ (forall opno lhs text later,
        pg_hacker_helper_format_expr (Some lhs) rtable = Done (Some text) ->
        pg_hacker_helper_format_expr
          (Some (OpExpr opno (lhs :: bad :: later))) rtable
        = failure).
Proof.
  intros Hbad Hfail.
  rewrite format_of_inner in Hbad.
  destruct (format_expr_inner "" bad rtable) as [t|msg|] eqn:Hinner;
    cbn [bind] in Hbad; subst failure; try discriminate.
  - split; [|split].
    + intros funcid before texts later Hbefore.
      rewrite format_of_inner. cbn [format_expr_inner].
      rewrite (foreach_args_first_failure
                 (fun buf arg => format_expr_inner buf arg rtable)
                 before texts bad later (Raised msg)); try reflexivity.
      * intros arg str. apply format_expr_inner_prefix.
      * induction Hbefore; constructor; [now apply format_text_iff | assumption].
      * exact Hinner.
    + intros opno [|r later]; rewrite format_of_inner.
      * now rewrite format_opexpr_one, Hinner.
      * now rewrite format_opexpr_two_or_more, Hinner.
    + intros opno lhs text later Hlhs. apply format_text_iff in Hlhs.
      rewrite format_of_inner.
      now rewrite format_opexpr_two_or_more, Hlhs, Hinner.
  - split; [|split].
    + intros funcid before texts later Hbefore.
      rewrite format_of_inner. cbn [format_expr_inner].
      rewrite (foreach_args_first_failure
                 (fun buf arg => format_expr_inner buf arg rtable)
                 before texts bad later Fault); try reflexivity.
      * intros arg str. apply format_expr_inner_prefix.
      * induction Hbefore; constructor; [now apply format_text_iff | assumption].
      * exact Hinner.
    + intros opno [|r later]; rewrite format_of_inner.
      * now rewrite format_opexpr_one, Hinner.
      * now rewrite format_opexpr_two_or_more, Hinner.
    + intros opno lhs text later Hlhs. apply format_text_iff in Hlhs.
      rewrite format_of_inner.
      now rewrite format_opexpr_two_or_more, Hlhs, Hinner.
Qed.

Lemma first_failure_is_outcome_witness :
  pg_hacker_helper_format_expr (pg := sample_backend)
    (Some (FuncExpr 870 ([Var 1 1; Const 16 1 true] ++ Var 2 3 :: [Var 1 2])))
    sample_rtable
  = Raised "invalid attnum for rangetable entry".
Proof.
  apply (proj1 (first_failure_is_outcome (pg := sample_backend) sample_rtable
                  (Var 2 3) (Raised "invalid attnum for rangetable entry")
                  eq_refl eq_refl)
           870%N [Var 1 1; Const 16 1 true] ["emp.id"; "NULL"] [Var 1 2]).
  repeat constructor.
Defined.

(** *** What of the range table is read *)

Section RangeTable.

Context {pg : Backend}.

Variables rtable rtable' : list RangeTblEntry.

(** The column references that satisfy [q] are special, or are treated the
    same with both range tables: in range in both with the same entry, or out
    of range in both. *)
Variable q : Z -> bool.

Hypothesis q_agree :
  forall varno,
    q varno = true ->
    is_special_varno varno = true
    \/ (varno_in_range rtable varno = varno_in_range rtable' varno
        /\ rt_fetch varno rtable = rt_fetch varno rtable').

Lemma foreach_args_ext (f g : string -> Expr -> outcome string)
    (cells : list Expr) :
  Forall (fun arg => forall str, f str arg = g str arg) cells ->
  forall buf, foreach_args f buf cells = foreach_args g buf cells.
Proof.
  induction 1 as [|arg rest Harg _ IH]; intros buf; cbn [foreach_args].
  - reflexivity.
  - rewrite (Harg buf). destruct (g buf arg); cbn [bind]; try reflexivity.
    apply IH.
Qed.

Lemma format_expr_inner_agree (expr : Expr) :
  all_varnos q expr = true ->
  forall str,
    format_expr_inner str expr rtable = format_expr_inner str expr rtable'.
Proof.
  induction expr as [varno varattno | consttype constvalue constisnull
                    | opno args IH | funcid args IH | tag]
    using Expr_nested_ind; intros Hq str.
  - cbn [all_varnos] in Hq. cbn [format_expr_inner].
    destruct (q_agree varno Hq) as [Hspecial | [Hrange Hfetch]].
    + unfold is_special_varno in Hspecial.
      destruct (varno =? INNER_VAR); [reflexivity|].
      destruct (varno =? OUTER_VAR); [reflexivity|].
      destruct (varno =? INDEX_VAR); [reflexivity | discriminate].
    + unfold varno_in_range in Hrange. now rewrite Hrange, Hfetch.
  - reflexivity.
  - cbn [all_varnos] in Hq.
    pose proof (forallb_Forall_imp _ _ _ IH Hq) as Hargs.
    destruct args as [|l [|r rest]].
    + reflexivity.
    + inversion Hargs as [|? ? Hl _]; subst.
      cbn [format_expr_inner]. change (1 <? list_length [l]) with false.
      cbv iota. apply Hl.
    + inversion Hargs as [|? ? Hl Hrest]; subst.
      inversion Hrest as [|? ? Hr _]; subst.
      cbn [format_expr_inner]. rewrite list_length_two_or_more.
      rewrite (Hl str).
      destruct (format_expr_inner str l rtable'); cbn [bind]; try reflexivity.
      apply Hr.
  - cbn [all_varnos] in Hq.
    pose proof (forallb_Forall_imp _ _ _ IH Hq) as Hargs.
    cbn [format_expr_inner].
    now rewrite (foreach_args_ext
                   (fun buf arg => format_expr_inner buf arg rtable)
                   (fun buf arg => format_expr_inner buf arg rtable')
                   args Hargs).
  - reflexivity.
Qed.

End RangeTable.

Lemma rt_fetch_app (rtable more : list RangeTblEntry) (varno : Z) :
  varno_in_range rtable varno = true ->
  varno_in_range (rtable ++ more)%list varno = true
  /\ rt_fetch varno rtable = rt_fetch varno (rtable ++ more)%list.
Proof.
  unfold varno_in_range, rt_fetch, list_nth, list_length. intros H.
  apply andb_true_iff in H. destruct H as [H1 H2].
  apply Z.ltb_lt in H1. apply Z.leb_le in H2.
  split.
  - apply andb_true_iff. split; [now apply Z.ltb_lt|].
    apply Z.leb_le. rewrite length_app. lia.
  - destruct (varno - 1 <? 0); [reflexivity|].
    symmetry. apply nth_error_app1. lia.
Qed.

(** X6. Entries added at the end of the range table change nothing for a
    tree whose column references are special slots or in range already: the
    call has the same outcome with the longer table. *)
Theorem longer_range_table_same_text {pg : Backend}
    (rtable more : list RangeTblEntry) (expr : Expr) :
  all_varnos
    (fun varno => is_special_varno varno || varno_in_range rtable varno)
    expr = true ->
  pg_hacker_helper_format_expr (Some expr) (rtable ++ more)%list
  = pg_hacker_helper_format_expr (Some expr) rtable.
Proof.
  intros Hq. unfold pg_hacker_helper_format_expr.
  rewrite (format_expr_inner_agree rtable (rtable ++ more)%list
             (fun varno => is_special_varno varno || varno_in_range rtable varno));
    [reflexivity | | exact Hq].
  intros varno Hv. apply orb_true_iff in Hv. destruct Hv as [Hs | Hr].
  - now left.
  - right. destruct (rt_fetch_app rtable more varno Hr) as [Hr' Hfetch].
    split; [now rewrite Hr, Hr' | exact Hfetch].
Qed.

Lemma longer_range_table_same_text_witness :
  pg_hacker_helper_format_expr (pg := sample_backend)
    (Some (OpExpr 96 [Var 2 2; FuncExpr 870 [Var 1 2; Var (-3) 1]]))
    (sample_rtable ++ [mkRTE (mkAlias "x" ["y"])])%list
  = pg_hacker_helper_format_expr (pg := sample_backend)
      (Some (OpExpr 96 [Var 2 2; FuncExpr 870 [Var 1 2; Var (-3) 1]]))
      sample_rtable.
Proof.
  apply (longer_range_table_same_text (pg := sample_backend) sample_rtable
           [mkRTE (mkAlias "x" ["y"])]
           (OpExpr 96 [Var 2 2; FuncExpr 870 [Var 1 2; Var (-3) 1]])).
  reflexivity.
Defined.

(** X7. The range table is read for column references only, and not for
    those of the special slots: a tree whose column references all are
    special slots has the same outcome with every range table. *)
Theorem special_slots_need_no_range_table {pg : Backend}
    (rtable rtable' : list RangeTblEntry) (expr : Expr) :
  all_varnos is_special_varno expr = true ->
  pg_hacker_helper_format_expr (Some expr) rtable
  = pg_hacker_helper_format_expr (Some expr) rtable'.
Proof.
  intros Hq. unfold pg_hacker_helper_format_expr.
  rewrite (format_expr_inner_agree rtable rtable' is_special_varno);
    [reflexivity | | exact Hq].
  intros varno Hv. now left.
Qed.

Lemma special_slots_need_no_range_table_witness :
  pg_hacker_helper_format_expr (pg := sample_backend)
    (Some (FuncExpr 1397 [OpExpr 558 [Var (-2) 5]; Const 0 1 false]))
    sample_rtable
  = pg_hacker_helper_format_expr (pg := sample_backend)
      (Some (FuncExpr 1397 [OpExpr 558 [Var (-2) 5]; Const 0 1 false])) [].
Proof.
  apply (special_slots_need_no_range_table (pg := sample_backend)
           sample_rtable []
           (FuncExpr 1397 [OpExpr 558 [Var (-2) 5]; Const 0 1 false])).
  reflexivity.
Defined.

(** *** The empty text *)

(** X8. The call returns the empty string for two kinds of root only: a
    column reference that is out of range, and a constant that is not NULL
    and whose output function gives the empty string.  Operator
    applications, function calls, column references that resolve and
    unsupported nodes never format to the empty string. *)
Theorem empty_text_roots {pg : Backend} (rtable : list RangeTblEntry)
    (expr : Expr) :
  pg_hacker_helper_format_expr (Some expr) rtable = Done (Some "") ->
  (exists varno varattno,
      expr = Var varno varattno
      /\ is_special_varno varno = false
      /\ ~ (1 <= varno <= list_length rtable))
  \/ (exists consttype constvalue info,
        expr = Const consttype constvalue false
        /\ getTypeOutputInfo consttype = Done info
        /\ OidOutputFunctionCall (fst info) constvalue = Done "").
Proof.
  intros H. apply format_text_iff in H.
  destruct expr as [varno varattno | consttype constvalue constisnull
                   | opno args | funcid args | tag].
  - left. exists varno, varattno. split; [reflexivity|].
    cbn [format_expr_inner] in H. unfold is_special_varno.
    destruct (varno =? INNER_VAR); [discriminate|].
    destruct (varno =? OUTER_VAR); [discriminate|].
    destruct (varno =? INDEX_VAR); [discriminate|].
    split; [reflexivity|].
    destruct (negb _) eqn:Hguard.
    + apply negb_true_iff, andb_false_iff in Hguard.
      destruct Hguard as [Hlo | Hhi];
        [apply Z.ltb_ge in Hlo | apply Z.leb_gt in Hhi]; lia.
    + destruct (rt_fetch varno rtable) as [rte|]; [|discriminate].
      destruct (get_rte_attribute_name rte varattno) as [attname| |];
        cbn [bind] in H; try discriminate.
      inversion H as [Htext]. cbn [append] in Htext.
      apply append_eq_empty in Htext. destruct Htext as [_ Hdot].
      discriminate.
  - right. cbn [format_expr_inner] in H.
    destruct constisnull; [discriminate|].
    destruct (getTypeOutputInfo consttype) as [info| |] eqn:Hinfo;
      cbn [bind] in H; try discriminate.
    destruct (OidOutputFunctionCall (fst info) constvalue) as [out| |] eqn:Hout;
      cbn [bind] in H; try discriminate.
    inversion H as [Htext]. cbn [append] in Htext. subst out.
    exists consttype, constvalue, info. auto.
  - exfalso. destruct args as [|l [|r rest]].
    + discriminate.
    + rewrite format_opexpr_one in H.
      destruct (format_expr_inner "" l rtable); cbn [bind] in H;
        try discriminate.
      inversion H as [Htext]. cbn [append] in Htext.
      apply append_eq_empty in Htext. destruct Htext as [_ Htail].
      discriminate.
    + rewrite format_opexpr_two_or_more in H.
      destruct (format_expr_inner "" l rtable); cbn [bind] in H;
        try discriminate.
      destruct (format_expr_inner "" r rtable); cbn [bind] in H;
        try discriminate.
      inversion H as [Htext]. cbn [append] in Htext.
      apply append_eq_empty in Htext. destruct Htext as [_ Htail].
      discriminate.
  - exfalso. cbn [format_expr_inner] in H.
    destruct (foreach_args _ _ args) as [str1| |]; cbn [bind] in H;
      try discriminate.
    inversion H as [Htext].
    apply append_eq_empty in Htext. destruct Htext as [_ Hparen].
    discriminate.
  - discriminate.
Qed.

Lemma empty_text_roots_witness :
  (exists varno varattno,
      Var 3 1 = Var varno varattno
      /\ is_special_varno (pg := sample_backend) varno = false
      /\ ~ (1 <= varno <= list_length sample_rtable))
  \/ (exists consttype constvalue info,
        Var 3 1 = Const consttype constvalue false
        /\ getTypeOutputInfo (Backend := sample_backend) consttype = Done info
        /\ OidOutputFunctionCall (Backend := sample_backend) (fst info)
             constvalue = Done "").
Proof.
  apply (empty_text_roots (pg := sample_backend) sample_rtable (Var 3 1)).
  reflexivity.
Defined.

(** *** Reading a returned text back *)

Section Decomposition.

Context {pg : Backend}.

Variable rtable : list RangeTblEntry.

Lemma renders_args_texts (args : list Expr) :
  forallb (renders rtable) args = true ->
  exists texts,
    Forall2 (fun arg text => format_expr_inner "" arg rtable = Done text)
      args texts.
Proof.
  induction args as [|arg rest IH]; cbn [forallb]; intros Hall.
  - exists []. constructor.
  - apply andb_true_iff in Hall. destruct Hall as [Harg Hrest].
    destruct (IH Hrest) as [texts Htexts].
    rewrite <- (is_done_format_expr_inner rtable arg "") in Harg.
    destruct (format_expr_inner "" arg rtable) as [text| |] eqn:Htext;
      try discriminate.
    exists (text :: texts). now constructor.
Qed.

Lemma Forall2_format_text (args : list Expr) (texts : list string) :
  Forall2 (fun arg text => format_expr_inner "" arg rtable = Done text)
    args texts ->
  Forall2
    (fun arg text =>
       pg_hacker_helper_format_expr (Some arg) rtable = Done (Some text))
    args texts.
Proof.
  induction 1; constructor; [now apply format_text_iff | assumption].
Qed.

End Decomposition.

(** X9. A returned text has the shape of its root.  When the call returns
    for a function call, every argument formats to a text and the result is
    the name, ["("], these texts with commas between them and [")"]; when it
    returns for an operator application with two or more operands, the first
    two format to texts and the result is the infix form; with one operand,
    the prefix form. *)
Theorem returned_text_decomposes {pg : Backend} (rtable : list RangeTblEntry)
    (text : string) :
  (forall funcid args,
      pg_hacker_helper_format_expr (Some (FuncExpr funcid args)) rtable
      = Done (Some text) ->
      exists texts,
        Forall2
          (fun arg t =>
             pg_hacker_helper_format_expr (Some arg) rtable = Done (Some t))
          args texts
        /\ text = funcname_or_placeholder (get_func_name funcid) ++ "("
                    ++ String.concat "," texts ++ ")")
  /\ (forall opno a b more,
        pg_hacker_helper_format_expr (Some (OpExpr opno (a :: b :: more)))
          rtable
        = Done (Some text) ->
        exists ta tb,
          pg_hacker_helper_format_expr (Some a) rtable = Done (Some ta)
          /\ pg_hacker_helper_format_expr (Some b) rtable = Done (Some tb)
          /\ text = ta ++ " " ++ opname_or_placeholder (get_opname opno)
                       ++ " " ++ tb)
  /\ (forall opno a,
        pg_hacker_helper_format_expr (Some (OpExpr opno [a])) rtable
        = Done (Some text) ->
        exists ta,
          pg_hacker_helper_format_expr (Some a) rtable = Done (Some ta)
          /\ text = opname_or_placeholder (get_opname opno) ++ " " ++ ta).
Proof.
  split; [|split].
  - intros funcid args H.
    assert (Hrenders : renders rtable (FuncExpr funcid args) = true).
    { apply format_returns_iff. now exists text. }
    cbn [renders] in Hrenders.
    destruct (renders_args_texts rtable args Hrenders) as [texts Htexts].
    exists texts. split; [now apply Forall2_format_text|].
    apply format_text_iff in H.
    rewrite (format_funcexpr_texts rtable "" funcid args texts Htexts) in H.
    now inversion H.
  - intros opno a b more H. apply format_text_iff in H.
    rewrite format_opexpr_two_or_more in H.
    destruct (format_expr_inner "" a rtable) as [ta| |] eqn:Ha;
      cbn [bind] in H; try discriminate.
    destruct (format_expr_inner "" b rtable) as [tb| |] eqn:Hb;
      cbn [bind] in H; try discriminate.
    exists ta, tb. repeat split; try now apply format_text_iff.
    now inversion H.
  - intros opno a H. apply format_text_iff in H.
    rewrite format_opexpr_one in H.
    destruct (format_expr_inner "" a rtable) as [ta| |] eqn:Ha;
      cbn [bind] in H; try discriminate.
    exists ta. split; [now apply format_text_iff | now inversion H].
Qed.

Lemma returned_text_decomposes_witness :
  exists ta tb,
    pg_hacker_helper_format_expr (pg := sample_backend) (Some (Var 1 1))
      sample_rtable = Done (Some ta)
    /\ pg_hacker_helper_format_expr (pg := sample_backend) (Some (Var 7 1))
         sample_rtable = Done (Some tb)
    /\ "emp.id = "
       = ta ++ " " ++ opname_or_placeholder
                        (get_opname (Backend := sample_backend) 96%N)
            ++ " " ++ tb.
Proof.
  apply (proj1 (proj2 (returned_text_decomposes (pg := sample_backend)
                         sample_rtable "emp.id = "))
           96%N (Var 1 1) (Var 7 1) [Var 1 99]).
  reflexivity.
Defined.

(** X10. The formatter writes no parentheses around an operator
    application, so the nesting of binary operators does not show in the
    text: [(a op1 b) op2 c] and [a op1 (b op2 c)] have the same outcome,
    text or error, for all operands and operator ids. *)
Theorem operator_nesting_not_shown {pg : Backend} (rtable : list RangeTblEntry)
    (op1 op2 : Oid) (a b c : Expr) :
  pg_hacker_helper_format_expr
    (Some (OpExpr op2 [OpExpr op1 [a; b]; c])) rtable
  = pg_hacker_helper_format_expr
      (Some (OpExpr op1 [a; OpExpr op2 [b; c]])) rtable.
Proof.
  rewrite !format_of_inner, !format_opexpr_two_or_more.
  destruct (format_expr_inner "" a rtable) as [ta| |]; cbn [bind];
    try reflexivity.
  destruct (format_expr_inner "" b rtable) as [tb| |]; cbn [bind];
    try reflexivity.
  destruct (format_expr_inner "" c rtable) as [tc| |]; cbn [bind];
    try reflexivity.
  do 2 f_equal. rewrite !append_assoc. reflexivity.
Qed.
